(** * Field validators of the Author and Post models (server/models.py)

    A shallow embedding of the six [@validates] hooks of [Author] and [Post]
    and of the storage operations that call them, followed by the properties
    the specification states about them.

    Python data is modelled as the interpreter has it: a [str] is a sequence
    of Unicode code points ([len] counts code points, [strip] and [isdigit]
    classify code points), a candidate is a dynamically typed [value], and a
    validator either returns or raises. *)

From Stdlib Require Import List Bool Arith ZArith NArith Lia.
From Stdlib Require Import Ascii String DecimalString DecimalPos DecimalZ.
Import ListNotations.

(** ** Python strings *)

(** A code point, 0 .. 0x10FFFF. *)
Definition char := N.

(** A Python [str]: its code points in order. *)
Definition str := list char.

(** A source literal (all literals of models.py are ASCII). *)
Definition lit (s : string) : str :=
  List.map N_of_ascii (list_ascii_of_string s).

Definition in_range (c : char) (r : N * N) : bool :=
  (fst r <=? c)%N && (c <=? snd r)%N.

Definition in_ranges (t : list (N * N)) (c : char) : bool :=
  existsb (in_range c) t.

(** The code points [str.isspace] accepts; [str.strip()] with no argument
    removes exactly these. *)
Definition whitespace_table : list (N * N) :=
  [ (0x9, 0xd); (0x1c, 0x20); (0x85, 0x85); (0xa0, 0xa0); (0x1680, 0x1680);
    (0x2000, 0x200a); (0x2028, 0x2029); (0x202f, 0x202f); (0x205f, 0x205f);
    (0x3000, 0x3000) ]%N.

Definition isspace_char : char -> bool := in_ranges whitespace_table.

(** The code points [str.isdigit] accepts: Numeric_Type Decimal or Digit
    (Unicode 14, the database of CPython 3.11).  ASCII 0-9 is the first
    range; the superscripts, the Arabic-Indic digits, the circled digits and
    the like follow. *)
Definition digit_table : list (N * N) :=
  [ (0x30, 0x39); (0xb2, 0xb3); (0xb9, 0xb9); (0x660, 0x669); (0x6f0, 0x6f9);
    (0x7c0, 0x7c9); (0x966, 0x96f); (0x9e6, 0x9ef); (0xa66, 0xa6f);
    (0xae6, 0xaef); (0xb66, 0xb6f); (0xbe6, 0xbef); (0xc66, 0xc6f);
    (0xce6, 0xcef); (0xd66, 0xd6f); (0xde6, 0xdef); (0xe50, 0xe59);
    (0xed0, 0xed9); (0xf20, 0xf29); (0x1040, 0x1049); (0x1090, 0x1099);
    (0x1369, 0x1371); (0x17e0, 0x17e9); (0x1810, 0x1819); (0x1946, 0x194f);
    (0x19d0, 0x19da); (0x1a80, 0x1a89); (0x1a90, 0x1a99); (0x1b50, 0x1b59);
    (0x1bb0, 0x1bb9); (0x1c40, 0x1c49); (0x1c50, 0x1c59); (0x2070, 0x2070);
    (0x2074, 0x2079); (0x2080, 0x2089); (0x2460, 0x2468); (0x2474, 0x247c);
    (0x2488, 0x2490); (0x24ea, 0x24ea); (0x24f5, 0x24fd); (0x24ff, 0x24ff);
    (0x2776, 0x277e); (0x2780, 0x2788); (0x278a, 0x2792); (0xa620, 0xa629);
    (0xa8d0, 0xa8d9); (0xa900, 0xa909); (0xa9d0, 0xa9d9); (0xa9f0, 0xa9f9);
    (0xaa50, 0xaa59); (0xabf0, 0xabf9); (0xff10, 0xff19); (0x104a0, 0x104a9);
    (0x10a40, 0x10a43); (0x10d30, 0x10d39); (0x10e60, 0x10e68);
    (0x11052, 0x1105a); (0x11066, 0x1106f); (0x110f0, 0x110f9);
    (0x11136, 0x1113f); (0x111d0, 0x111d9); (0x112f0, 0x112f9);
    (0x11450, 0x11459); (0x114d0, 0x114d9); (0x11650, 0x11659);
    (0x116c0, 0x116c9); (0x11730, 0x11739); (0x118e0, 0x118e9);
    (0x11950, 0x11959); (0x11c50, 0x11c59); (0x11d50, 0x11d59);
    (0x11da0, 0x11da9); (0x16a60, 0x16a69); (0x16ac0, 0x16ac9);
    (0x16b50, 0x16b59); (0x1d7ce, 0x1d7ff); (0x1e140, 0x1e149);
    (0x1e2f0, 0x1e2f9); (0x1e950, 0x1e959); (0x1f100, 0x1f10a);
    (0x1fbf0, 0x1fbf9) ]%N.

Definition isdigit_char : char -> bool := in_ranges digit_table.

(** The digits the specification means: ASCII 0 to 9. *)
Definition ascii_digit (c : char) : bool := (0x30 <=? c)%N && (c <=? 0x39)%N.

(** [s.isdigit()]: every character a digit and at least one character. *)
Definition isdigit (s : str) : bool :=
  match s with
  | [] => false
  | _ => forallb isdigit_char s
  end.

Fixpoint lstrip (s : str) : str :=
  match s with
  | [] => []
  | c :: s' => if isspace_char c then lstrip s' else s
  end.

Definition rstrip (s : str) : str := rev (lstrip (rev s)).

(** [s.strip()] *)
Definition strip (s : str) : str := rstrip (lstrip s).

Fixpoint str_eqb (s t : str) : bool :=
  match s, t with
  | [], [] => true
  | c :: s', d :: t' => (c =? d)%N && str_eqb s' t'
  | _, _ => false
  end.

Fixpoint startswith (p s : str) : bool :=
  match p, s with
  | [], _ => true
  | _ :: _, [] => false
  | c :: p', d :: s' => (c =? d)%N && startswith p' s'
  end.

(** [p in s] for two strings: [p] occurs in [s] as a contiguous run. *)
Fixpoint contains (p s : str) : bool :=
  startswith p s ||
  match s with
  | [] => false
  | _ :: s' => contains p s'
  end.

(** [sep.join(parts)] *)
Fixpoint join (sep : str) (parts : list str) : str :=
  match parts with
  | [] => []
  | [p] => p
  | p :: rest => p ++ sep ++ join sep rest
  end.

(** ** Python values, exceptions, results *)

(** What an attribute assignment can hand to a validator: the scalar
    values a column takes. *)
Inductive value : Type :=
  | VNone
  | VBool (b : bool)
  | VInt (z : Z)
  | VStr (s : str).

(** The exceptions the validators can end in.  [ValueError] is the one the
    source raises itself; [TypeError] is what the interpreter raises for
    [len(v)] or [phrase in v] on a value that supports neither, and
    [AttributeError] for [v.strip()] on a value without that method. *)
Inductive exn : Type :=
  | ValueError (msg : str)
  | TypeError
  | AttributeError.

Inductive result (A : Type) : Type :=
  | Ok (a : A)
  | Raise (e : exn).

Arguments Ok {A} a.
Arguments Raise {A} e.

(** Truth value of [v], as [not v] tests it. *)
Definition truthy (v : value) : bool :=
  match v with
  | VNone => false
  | VBool b => b
  | VInt z => negb (z =? 0)%Z
  | VStr s => match s with [] => false | _ => true end
  end.

(** [str(v)] *)
Definition py_str (v : value) : str :=
  match v with
  | VNone => lit "None"
  | VBool true => lit "True"
  | VBool false => lit "False"
  | VInt z => lit (NilZero.string_of_int (Z.to_int z))
  | VStr s => s
  end.

(** [isinstance(v, str)] *)
Definition is_str (v : value) : bool :=
  match v with
  | VStr _ => true
  | _ => false
  end.

(** [v == w]; a [bool] is the integer 0 or 1, and a string equals only a
    string. *)
Definition py_eq (v w : value) : bool :=
  match v, w with
  | VNone, VNone => true
  | VStr s, VStr t => str_eqb s t
  | VBool a, VBool b => Bool.eqb a b
  | VInt a, VInt b => (a =? b)%Z
  | VBool a, VInt b | VInt b, VBool a => (Z.b2z a =? b)%Z
  | _, _ => false
  end.

(** [len(v)]: defined on strings only. *)
Definition py_len (v : value) : result nat :=
  match v with
  | VStr s => Ok (List.length s)
  | _ => Raise TypeError
  end.

Definition bind {A B : Type} (r : result A) (k : A -> result B) : result B :=
  match r with
  | Ok a => k a
  | Raise e => Raise e
  end.

Notation "x <- r ;; k" := (bind r (fun x => k))
  (at level 61, r at next level, right associativity).

(** [p in v]: substring test on a string, [TypeError] on a value that is not
    iterable. *)
Definition py_in (p : str) (v : value) : result bool :=
  match v with
  | VStr s => Ok (contains p s)
  | _ => Raise TypeError
  end.

(** [v.strip()] *)
Definition py_strip (v : value) : result str :=
  match v with
  | VStr s => Ok (strip s)
  | _ => Raise AttributeError
  end.

(** [any(p in v for p in phrases)]: stops at the first hit, and at the first
    exception. *)
Fixpoint any_in (phrases : list str) (v : value) : result bool :=
  match phrases with
  | [] => Ok false
  | p :: ps =>
      hit <- py_in p v ;;
      if (hit : bool) then Ok true else any_in ps v
  end.

(** ** The Author table *)

(** A persisted row of [authors].  The name column holds what
    [validate_name] returned, a string; the phone column holds what
    [validate_phone_number] returned. *)
Record Author : Type := mkAuthor {
  id : Z;
  name : str;
  phone_number : value
}.

(** The rows of [authors], in storage order. *)
Definition table := list Author.

(** [Author.query.filter(Author.name == n).first()] *)
Definition query_first_by_name (db : table) (n : str) : option Author :=
  find (fun a => str_eqb (name a) n) db.

(** [existing.id != self.id], where [self.id] is [None] until the row is
    stored. *)
Definition id_differs (existing_id : Z) (self_id : option Z) : bool :=
  match self_id with
  | None => true
  | Some i => negb (existing_id =? i)%Z
  end.

(** ** Author validators *)

Definition msg_author_name : str := lit "Author must have a name.".
Definition msg_author_unique : str := lit "Author name must be unique.".
Definition msg_phone : str := lit "Phone number must be exactly 10 digits.".

(** [Author.validate_name], with the table the query reads and the id of
    the record under validation made explicit. *)
Definition validate_name (db : table) (self_id : option Z) (v : value)
  : result str :=
  if negb (truthy v) || negb (truthy (VStr (strip (py_str v)))) then
    Raise (ValueError msg_author_name)
  else
    let normalized := strip (py_str v) in
    match query_first_by_name db normalized with
    | Some existing =>
        if id_differs (id existing) self_id then
          Raise (ValueError msg_author_unique)
        else Ok normalized
    | None => Ok normalized
    end.

(** [Author.validate_phone_number] *)
Definition validate_phone_number (v : value) : result value :=
  match v with
  | VNone => Ok v
  | VStr s =>
      if negb (List.length s =? 10) || negb (isdigit s) then
        Raise (ValueError msg_phone)
      else Ok v
  | _ => (* not isinstance(value, str) *)
      Raise (ValueError msg_phone)
  end.

(** ** Post validators *)

Definition CLICKBAIT_PHRASES : list str :=
  [lit "Won't Believe"; lit "Secret"; lit "Top"; lit "Guess"].

Definition msg_post_title : str := lit "Post must have a title.".
Definition msg_clickbait : str :=
  lit "Title must be clickbait-y and contain one of: "
  ++ join (lit ", ") CLICKBAIT_PHRASES.
Definition msg_content : str :=
  lit "Content must be at least 250 characters long.".
Definition msg_summary : str := lit "Summary must be at most 250 characters.".
Definition msg_category : str :=
  lit "Category must be 'Fiction' or 'Non-Fiction'.".

(** [Post.validate_title] *)
Definition validate_title (v : value) : result str :=
  if negb (truthy v) || negb (truthy (VStr (strip (py_str v)))) then
    Raise (ValueError msg_post_title)
  else
    hit <- any_in CLICKBAIT_PHRASES v ;;
    if negb hit then Raise (ValueError msg_clickbait)
    else py_strip v.

(** [Post.validate_content] *)
Definition validate_content (v : value) : result value :=
  match v with
  | VNone => Raise (ValueError msg_content)
  | _ =>
      n <- py_len v ;;
      if n <? 250 then Raise (ValueError msg_content) else Ok v
  end.

(** [Post.validate_summary] *)
Definition validate_summary (v : value) : result value :=
  match v with
  | VNone => Ok v
  | _ =>
      n <- py_len v ;;
      if 250 <? n then Raise (ValueError msg_summary) else Ok v
  end.

(** The set literal of [validate_category]. *)
Definition allowed : list value := [VStr (lit "Fiction"); VStr (lit "Non-Fiction")].

(** [Post.validate_category] *)
Definition validate_category (v : value) : result value :=
  if negb (existsb (py_eq v) allowed) then Raise (ValueError msg_category)
  else Ok v.

(** ** Storage operations

    The storage collaborator (the ORM session) is outside models.py; what
    follows is the lifecycle the validators are written for: a constructor
    call runs the validator of each field it sets and the row is stored
    under a fresh id, an attribute assignment on a stored row runs that
    field's validator against the current table, a deletion validates
    nothing.  An operation whose validator raises leaves the table as it
    was. *)

(** The id storage gives a new row: one more than the largest in use. *)
Definition next_id (db : table) : Z :=
  1 + fold_right (fun a m => Z.max (id a) m) 0%Z db.

Definition set_name (i : Z) (n : str) (a : Author) : Author :=
  if (id a =? i)%Z then mkAuthor (id a) n (phone_number a) else a.

Definition set_phone_number (i : Z) (p : value) (a : Author) : Author :=
  if (id a =? i)%Z then mkAuthor (id a) (name a) p else a.

Inductive op : Type :=
  | Create (name_candidate phone_candidate : value)
      (* Author(name=..., phone_number=...), added and committed *)
  | AssignName (i : Z) (candidate : value)      (* author.name = ... *)
  | AssignPhone (i : Z) (candidate : value)     (* author.phone_number = ... *)
  | Delete (i : Z).

Definition run_op (db : table) (o : op) : result table :=
  match o with
  | Create nv pv =>
      n <- validate_name db None nv ;;
      p <- validate_phone_number pv ;;
      Ok (db ++ [mkAuthor (next_id db) n p])
  | AssignName i nv =>
      n <- validate_name db (Some i) nv ;;
      Ok (List.map (set_name i n) db)
  | AssignPhone i pv =>
      p <- validate_phone_number pv ;;
      Ok (List.map (set_phone_number i p) db)
  | Delete i =>
      Ok (filter (fun a => negb (id a =? i)%Z) db)
  end.

Fixpoint run_ops (db : table) (ops : list op) : result table :=
  match ops with
  | [] => Ok db
  | o :: rest => db' <- run_op db o ;; run_ops db' rest
  end.

(** A table that accepted operations lead to from the empty one. *)
Definition reachable (db : table) : Prop :=
  exists ops, run_ops [] ops = Ok db.

(** Pairwise distinct trimmed names, row by row. *)
Definition unique_trimmed_names (db : table) : Prop :=
  NoDup (List.map (fun a => strip (name a)) db).

(** ** Vocabulary of the properties *)

(** The first character, if any, is not whitespace. *)
Definition no_leading_space (s : str) : bool :=
  match s with
  | [] => true
  | c :: _ => negb (isspace_char c)
  end.

(** Nothing for [strip] to remove at either end. *)
Definition trimmed (s : str) : bool :=
  no_leading_space s && no_leading_space (rev s).

(** A field of the data model is a string or absent. *)
Definition candidate (c : option str) : value :=
  match c with
  | None => VNone
  | Some s => VStr s
  end.

(** Ten times SUPERSCRIPT TWO (U+00B2). *)
Definition superscript_twos : str := repeat 0xb2%N 10.

(** A string of [n] letters a. *)
Definition filler (n : nat) : str := repeat 0x61%N n.

(** One of the phrases occurs in [s] as a literal substring. *)
Definition has_clickbait (s : str) : Prop :=
  exists p l r, In p CLICKBAIT_PHRASES /\ s = l ++ p ++ r.

(** The uniqueness check lets [n] through for the record [self_id]: the
    first row named [n], if there is one, is that record. *)
Definition unique_for (db : table) (self_id : option Z) (n : str) : Prop :=
  match query_first_by_name db n with
  | Some existing => id_differs (id existing) self_id = false
  | None => True
  end.

(** What every accepted operation keeps: distinct ids, distinct names, each
    name trimmed and not empty, each phone number one the validator
    accepts. *)
Record well_formed (db : table) : Prop := {
  wf_ids : NoDup (List.map id db);
  wf_names : NoDup (List.map name db);
  wf_trimmed : forall a, In a db -> strip (name a) = name a /\ name a <> [];
  wf_phones : forall a, In a db ->
      validate_phone_number (phone_number a) = Ok (phone_number a)
}.

(** Two accepted constructions, one with blanks around the name. *)
Definition two_authors : table :=
  [mkAuthor 1 (lit "Ann") VNone; mkAuthor 2 (lit "Bob") (VStr (lit "1234567890"))].

(** Validating again what a validator returned returns it again;
    [stored] is the value the returned result is kept as. *)
Definition idempotent {A : Type}
  (validate : value -> result A) (stored : A -> value) : Prop :=
  forall (v : value) (y : A), validate v = Ok y -> validate (stored y) = Ok y.

(** The two error kinds of the specification, as the code tells them
    apart.  Every failure is a [ValueError]; the message says which rule was
    broken.  A presence, format, length or membership failure carries one of
    the seven messages below, a duplicate name carries
    [msg_author_unique]. *)
Definition invalid_field_messages : list str :=
  [msg_author_name; msg_phone; msg_post_title; msg_clickbait; msg_content;
   msg_summary; msg_category].

Definition InvalidField (e : exn) : Prop :=
  exists m, In m invalid_field_messages /\ e = ValueError m.

Definition DuplicateField (e : exn) : Prop :=
  e = ValueError msg_author_unique.

(** ** The [__repr__] methods *)

(** [Author.__repr__] of a stored row: the f-string renders the id with
    [format], which for an integer is its decimal rendering, and the name as
    it is. *)
Definition Author_repr (a : Author) : str :=
  lit "Author(id=" ++ py_str (VInt (id a)) ++ lit ", name="
  ++ py_str (VStr (name a)) ++ lit ")".

(** A [Post] object in memory: an attribute never assigned is [None]. *)
Record Post : Type := mkPost {
  post_id : value;
  title : value;
  content : value;
  category : value;
  summary : value
}.

(** [Post.__repr__]: two adjacent f-strings, the first ending in a blank
    after the title. *)
Definition Post_repr (p : Post) : str :=
  lit "Post(id=" ++ py_str (post_id p) ++ lit ", title=" ++ py_str (title p)
  ++ lit " " ++ lit "content=" ++ py_str (content p) ++ lit ", summary="
  ++ py_str (summary p) ++ lit ")".

(** An ASCII capital letter. *)
Definition is_upper (c : char) : bool := (0x41 <=? c)%N && (c <=? 0x5a)%N.

(** An ASCII character. *)
Definition is_ascii (c : char) : bool := (c <? 128)%N.

(** A character of a decimal rendering: the minus sign or a digit 0-9. *)
Definition decimal_char (c : char) : bool := (c =? 0x2d)%N || ascii_digit c.

(** The phone numbers the code lets through: none, or ten characters each
    of which [str.isdigit] accepts. *)
Definition phone_accepted (v : value) : Prop :=
  v = VNone \/
  exists s, v = VStr s /\ List.length s = 10 /\ forallb isdigit_char s = true.

(** * Properties *)

(** ** Strings *)

Lemma str_eqb_eq (s t : str) : str_eqb s t = true <-> s = t.
Proof.
  revert t; induction s as [|c s IH]; intros [|d t]; simpl;
    try (split; [discriminate | discriminate]); try tauto.
  rewrite andb_true_iff, N.eqb_eq, IH.
  split; [intros [-> ->]; reflexivity | intros E; injection E; auto].
Qed.

Lemma str_eqb_refl (s : str) : str_eqb s s = true.
Proof. apply str_eqb_eq; reflexivity. Qed.

Lemma str_eqb_neq (s t : str) : str_eqb s t = false <-> s <> t.
Proof.
  rewrite <- str_eqb_eq. destruct (str_eqb s t); split; congruence.
Qed.

Lemma lstrip_no_leading (s : str) : no_leading_space (lstrip s) = true.
Proof.
  induction s as [|c s IH]; simpl; [reflexivity|].
  destruct (isspace_char c) eqn:E; [exact IH | simpl; rewrite E; reflexivity].
Qed.

Lemma lstrip_fixed (s : str) : no_leading_space s = true -> lstrip s = s.
Proof.
  destruct s as [|c s]; simpl; [reflexivity|].
  destruct (isspace_char c); [discriminate | reflexivity].
Qed.

Lemma lstrip_suffix (s : str) : exists pre, s = pre ++ lstrip s.
Proof.
  induction s as [|c s [pre IH]]; simpl.
  - exists []; reflexivity.
  - destruct (isspace_char c).
    + exists (c :: pre); simpl; congruence.
    + exists []; reflexivity.
Qed.

Lemma lstrip_app (l : str) (c : char) (r : str) :
  isspace_char c = false -> lstrip (l ++ c :: r) = lstrip l ++ c :: r.
Proof.
  intros Hc; induction l as [|a l IH]; simpl.
  - rewrite Hc; reflexivity.
  - destruct (isspace_char a); [exact IH | reflexivity].
Qed.

Lemma lstrip_nil_iff (s : str) :
  lstrip s = [] <-> forallb isspace_char s = true.
Proof.
  induction s as [|c s IH]; simpl; [tauto|].
  destruct (isspace_char c); simpl; [exact IH | split; discriminate].
Qed.

Lemma no_leading_app (a b : str) :
  no_leading_space (a ++ b) = true -> no_leading_space a = true.
Proof. destruct a; simpl; auto. Qed.

Lemma forallb_rev (f : char -> bool) (s : str) :
  forallb f (rev s) = forallb f s.
Proof.
  destruct (forallb f s) eqn:E.
  - apply forallb_forall; intros x Hx; apply in_rev in Hx.
    rewrite forallb_forall in E; auto.
  - destruct (forallb f (rev s)) eqn:E'; [|reflexivity].
    rewrite <- E; symmetry; apply forallb_forall; intros x Hx.
    rewrite forallb_forall in E'; apply E'; apply in_rev.
    rewrite rev_involutive; exact Hx.
Qed.

(** [strip] leaves a block that starts and ends with a character that is
    not whitespace where it is, and trims around it. *)
Lemma strip_sandwich (l p r : str) :
  p <> [] -> trimmed p = true ->
  strip (l ++ p ++ r) = lstrip l ++ p ++ rstrip r.
Proof.
  intros Hp Ht; unfold trimmed in Ht; apply andb_true_iff in Ht as [Hh Hl].
  destruct p as [|c p]; [congruence|]; simpl in Hh.
  apply negb_true_iff in Hh.
  unfold strip, rstrip.
  change (l ++ (c :: p) ++ r) with (l ++ c :: (p ++ r)).
  rewrite (lstrip_app l c (p ++ r) Hh).
  change (lstrip l ++ c :: p ++ r) with (lstrip l ++ (c :: p) ++ r).
  rewrite !rev_app_distr, <- app_assoc.
  destruct (rev (c :: p)) as [|d q] eqn:Er.
  - apply (f_equal (@List.length _)) in Er; rewrite length_rev in Er;
      discriminate.
  - simpl in Hl; apply negb_true_iff in Hl.
    change ((d :: q) ++ rev (lstrip l)) with (d :: (q ++ rev (lstrip l))).
    rewrite (lstrip_app (rev r) d (q ++ rev (lstrip l)) Hl).
    change (d :: q ++ rev (lstrip l)) with ((d :: q) ++ rev (lstrip l)).
    rewrite <- Er, !rev_app_distr, !rev_involutive, <- app_assoc.
    reflexivity.
Qed.

Lemma strip_trimmed (s : str) : trimmed s = true -> strip s = s.
Proof.
  intros Ht; destruct s as [|c s]; [reflexivity|].
  pose proof (strip_sandwich [] (c :: s) []) as H.
  rewrite app_nil_r in H; simpl in H.
  change (rstrip []) with (@nil char) in H; rewrite app_nil_r in H.
  apply H; [discriminate | exact Ht].
Qed.

Lemma trimmed_strip (s : str) : trimmed (strip s) = true.
Proof.
  unfold trimmed, strip, rstrip; rewrite rev_involutive.
  rewrite lstrip_no_leading, andb_true_r.
  destruct (lstrip_suffix (rev (lstrip s))) as [pre E].
  apply (f_equal (@rev _)) in E.
  rewrite rev_involutive, rev_app_distr in E.
  apply no_leading_app with (b := rev pre).
  rewrite <- E; apply lstrip_no_leading.
Qed.

Lemma strip_idem (s : str) : strip (strip s) = strip s.
Proof. apply strip_trimmed, trimmed_strip. Qed.

Lemma strip_fixed_iff (s : str) : strip s = s <-> trimmed s = true.
Proof.
  split; [intros <-; apply trimmed_strip | apply strip_trimmed].
Qed.

(** [strip] returns the empty string exactly on the strings made of
    whitespace only (the empty one among them). *)
Lemma strip_nil_iff (s : str) :
  strip s = [] <-> forallb isspace_char s = true.
Proof.
  split.
  - unfold strip, rstrip; intros H.
    apply (f_equal (@rev _)) in H; rewrite rev_involutive in H; simpl in H.
    apply lstrip_nil_iff in H; rewrite forallb_rev in H.
    apply lstrip_nil_iff.
    pose proof (lstrip_no_leading s) as Hn.
    destruct (lstrip s) as [|c t]; [reflexivity|].
    simpl in H, Hn; destruct (isspace_char c); discriminate.
  - intros H; apply lstrip_nil_iff in H.
    unfold strip; rewrite H; reflexivity.
Qed.

(** Two spaces on each side of a trimmed, non-empty string are trimmed away
    again. *)
Lemma strip_padded (s : str) :
  s <> [] -> strip s = s -> strip (lit "  " ++ s ++ lit "  ") = s.
Proof.
  intros Hs Ht; apply strip_fixed_iff in Ht.
  rewrite strip_sandwich by assumption.
  change (lstrip (lit "  ")) with (@nil char).
  change (rstrip (lit "  ")) with (@nil char).
  simpl; apply app_nil_r.
Qed.

Lemma startswith_spec (p s : str) :
  startswith p s = true <-> exists r, s = p ++ r.
Proof.
  revert s; induction p as [|c p IH]; intros s; simpl.
  - split; [intros _; exists s; reflexivity | reflexivity].
  - destruct s as [|d s].
    + split; [discriminate | intros [r E]; discriminate].
    + rewrite andb_true_iff, N.eqb_eq, IH; split.
      * intros [-> [r ->]]; exists r; reflexivity.
      * intros [r E]; injection E as -> ->; split; [reflexivity | now exists r].
Qed.

(** [contains p s] is the literal-substring relation. *)
Lemma contains_spec (p s : str) :
  contains p s = true <-> exists l r, s = l ++ p ++ r.
Proof.
  induction s as [|d s IH].
  - simpl; rewrite orb_false_r, startswith_spec; split.
    + intros [r E]; exists [], r; exact E.
    + intros [l [r E]]; destruct l; [now exists r | discriminate].
  - cbn [contains]; rewrite orb_true_iff, startswith_spec, IH; split.
    + intros [[r E] | [l [r E]]].
      * exists [], r; exact E.
      * exists (d :: l), r; simpl; congruence.
    + intros [[|a l] [r E]].
      * left; exists r; exact E.
      * right; injection E as -> ->; exists l, r; reflexivity.
Qed.

(** A phrase that neither starts nor ends with whitespace survives
    trimming of the string around it. *)
Lemma contains_strip (p s : str) :
  p <> [] -> trimmed p = true ->
  contains p s = true -> contains p (strip s) = true.
Proof.
  intros Hp Ht H; apply contains_spec in H as [l [r ->]].
  rewrite strip_sandwich by assumption.
  apply contains_spec; eauto.
Qed.

(** ** Author.phone_number *)

Lemma in_ranges_below (b c : N) (t : list (N * N)) :
  forallb (fun r => (b <=? fst r)%N) t = true -> (c < b)%N ->
  in_ranges t c = false.
Proof.
  intros Ht Hc; unfold in_ranges.
  induction t as [|r t IH]; simpl in *; [reflexivity|].
  apply andb_true_iff in Ht as [Hr Ht]; apply N.leb_le in Hr.
  rewrite (IH Ht), orb_false_r.
  unfold in_range; apply andb_false_iff; left; apply N.leb_gt; lia.
Qed.

(** Among the ASCII characters [str.isdigit] accepts 0-9 and nothing else. *)
Lemma isdigit_char_ascii (c : char) :
  (c < 128)%N -> isdigit_char c = ascii_digit c.
Proof.
  intros Hc; unfold isdigit_char.
  change (in_ranges digit_table c)
    with (in_range c (0x30, 0x39)%N || in_ranges (tl digit_table) c).
  rewrite (in_ranges_below 128 c (tl digit_table)) by (trivial; reflexivity).
  apply orb_false_r.
Qed.

Lemma ascii_digit_isdigit (c : char) :
  ascii_digit c = true -> isdigit_char c = true.
Proof.
  intros H; rewrite isdigit_char_ascii; [exact H|].
  unfold ascii_digit in H; apply andb_true_iff in H as [_ H].
  apply N.leb_le in H; lia.
Qed.

Lemma isdigit_forallb (s : str) :
  List.length s = 10 -> isdigit s = forallb isdigit_char s.
Proof. destruct s; [discriminate | reflexivity]. Qed.

(** What the code accepts among strings: ten characters, each a digit in
    the sense of [str.isdigit]. *)
Lemma validate_phone_number_str (s : str) :
  validate_phone_number (VStr s) =
    if (List.length s =? 10) && forallb isdigit_char s then Ok (VStr s)
    else Raise (ValueError msg_phone).
Proof.
  unfold validate_phone_number.
  destruct (List.length s =? 10) eqn:E; simpl; [|reflexivity].
  apply Nat.eqb_eq in E; rewrite (isdigit_forallb s E).
  destruct (forallb isdigit_char s); reflexivity.
Qed.

(** Every ten-character string of ASCII digits is stored as it is, an
    absent number passes, and a string of another length or with a
    character [str.isdigit] refuses raises. *)
Lemma validate_phone_number_accepts_ascii_digits (s : str) :
  List.length s = 10 -> forallb ascii_digit s = true ->
  validate_phone_number (VStr s) = Ok (VStr s).
Proof.
  intros Hl Hd; rewrite validate_phone_number_str.
  apply Nat.eqb_eq in Hl; rewrite Hl; simpl.
  replace (forallb isdigit_char s) with true; [reflexivity|].
  symmetry; apply forallb_forall; intros c Hc.
  rewrite forallb_forall in Hd; apply ascii_digit_isdigit; auto.
Qed.

Lemma validate_phone_number_rejects (s : str) :
  List.length s <> 10 \/ forallb isdigit_char s = false ->
  validate_phone_number (VStr s) = Raise (ValueError msg_phone).
Proof.
  intros H; rewrite validate_phone_number_str.
  destruct H as [H | H].
  - apply Nat.eqb_neq in H; rewrite H; reflexivity.
  - rewrite H, andb_false_r; reflexivity.
Qed.

(** C3. A present phone number is to be accepted only when its ten
    characters are digits 0-9.  The code tests [value.isdigit()], which
    holds of every Unicode digit: the string of ten superscript twos has ten
    characters, none of them in 0-9, and [validate_phone_number] returns it
    as valid instead of raising.  (On ASCII strings the test is the one
    asked for: [isdigit_char_ascii],
    [validate_phone_number_accepts_ascii_digits],
    [validate_phone_number_rejects].) *)
Theorem validate_phone_number_accepts_superscripts :
  List.length superscript_twos = 10 /\
  forallb ascii_digit superscript_twos = false /\
  existsb ascii_digit superscript_twos = false /\
  validate_phone_number (VStr superscript_twos) = Ok (VStr superscript_twos).
Proof. repeat split; reflexivity. Qed.

(** C10. A present candidate that is not a string is refused by the
    [isinstance] test, whatever its rendering: the integer 1234567890
    prints as ten digits, which as a string would pass, and still raises. *)
Theorem validate_phone_number_non_string (v : value) :
  v <> VNone -> is_str v = false ->
  validate_phone_number v = Raise (ValueError msg_phone) /\
  validate_phone_number (VInt 1234567890) = Raise (ValueError msg_phone) /\
  validate_phone_number (VStr (py_str (VInt 1234567890)))
    = Ok (VStr (py_str (VInt 1234567890))).
Proof.
  intros Hn Hs; split; [|split; reflexivity].
  destruct v; try reflexivity; [congruence | discriminate].
Qed.

Lemma validate_phone_number_non_string_witness :
  VInt 1234567890 <> VNone /\ is_str (VInt 1234567890) = false /\
  validate_phone_number (VInt 1234567890) = Raise (ValueError msg_phone).
Proof.
  split; [discriminate | split; [reflexivity|]].
  apply (validate_phone_number_non_string (VInt 1234567890));
    [discriminate | reflexivity].
Defined.

(** ** Post.content, Post.summary, Post.category *)

Lemma validate_content_str (s : str) :
  validate_content (VStr s) =
    if List.length s <? 250 then Raise (ValueError msg_content)
    else Ok (VStr s).
Proof. reflexivity. Qed.

Lemma validate_summary_str (s : str) :
  validate_summary (VStr s) =
    if 250 <? List.length s then Raise (ValueError msg_summary)
    else Ok (VStr s).
Proof. reflexivity. Qed.

(** C6. [validate_content] raises its [ValueError] exactly when the
    candidate is absent or shorter than 250 characters, and returns every
    other candidate as it is; length 249 fails, 250 and 1000 pass. *)
Theorem validate_content_spec :
  (forall c : option str,
     validate_content (candidate c) = Raise (ValueError msg_content) <->
     (c = None \/ exists s, c = Some s /\ List.length s < 250)) /\
  (forall c : option str,
     validate_content (candidate c) = Ok (candidate c) <->
     (exists s, c = Some s /\ 250 <= List.length s)) /\
  validate_content (VStr (filler 249)) = Raise (ValueError msg_content) /\
  validate_content (VStr (filler 250)) = Ok (VStr (filler 250)) /\
  validate_content (VStr (filler 1000)) = Ok (VStr (filler 1000)).
Proof.
  split; [|split; [|repeat split; reflexivity]].
  - intros [s|]; cbn [candidate].
    + rewrite validate_content_str.
      destruct (Nat.ltb_spec (List.length s) 250) as [H|H]; split.
      * intros _; right; exists s; auto.
      * reflexivity.
      * discriminate.
      * intros [E | [t [E Ht]]]; [discriminate|].
        injection E as ->; lia.
    + split; [auto | reflexivity].
  - intros [s|]; cbn [candidate].
    + rewrite validate_content_str.
      destruct (Nat.ltb_spec (List.length s) 250) as [H|H]; split.
      * discriminate.
      * intros [t [E Ht]]; injection E as ->; lia.
      * intros _; exists s; auto.
      * reflexivity.
    + split; [discriminate | intros [s [E _]]; discriminate].
Qed.

(** C7. [validate_summary] returns an absent candidate; a present one
    raises exactly when it is longer than 250 characters and is returned as
    it is otherwise; length 250 passes and 251 fails. *)
Theorem validate_summary_spec :
  validate_summary VNone = Ok VNone /\
  (forall s : str,
     validate_summary (VStr s) = Raise (ValueError msg_summary) <->
     250 < List.length s) /\
  (forall s : str,
     validate_summary (VStr s) = Ok (VStr s) <-> List.length s <= 250) /\
  validate_summary (VStr (filler 250)) = Ok (VStr (filler 250)) /\
  validate_summary (VStr (filler 251)) = Raise (ValueError msg_summary).
Proof.
  split; [reflexivity|].
  split; [|split; [|split; reflexivity]]; intros s;
    rewrite validate_summary_str;
    destruct (Nat.ltb_spec 250 (List.length s)) as [H|H]; split;
    try discriminate; try reflexivity; intros; lia.
Qed.

Lemma py_eq_str (v : value) (s : str) : py_eq v (VStr s) = true <-> v = VStr s.
Proof.
  destruct v as [| | |t]; simpl; try (split; discriminate).
  rewrite str_eqb_eq; split; [intros ->; reflexivity | intros E; injection E; auto].
Qed.

(** C8. [validate_category] returns the candidate exactly when it is the
    string Fiction or the string Non-Fiction, and raises its [ValueError] on
    every other value: another case, another word, surrounding blanks, an
    absent value. *)
Theorem validate_category_spec :
  (forall v : value,
     validate_category v = Ok v <->
     (v = VStr (lit "Fiction") \/ v = VStr (lit "Non-Fiction"))) /\
  (forall v : value,
     validate_category v = Raise (ValueError msg_category) <->
     (v <> VStr (lit "Fiction") /\ v <> VStr (lit "Non-Fiction"))) /\
  validate_category (VStr (lit "fiction")) = Raise (ValueError msg_category) /\
  validate_category (VStr (lit "Drama")) = Raise (ValueError msg_category) /\
  validate_category (VStr (lit " Fiction ")) = Raise (ValueError msg_category) /\
  validate_category VNone = Raise (ValueError msg_category).
Proof.
  assert (K : forall v, existsb (py_eq v) allowed = true <->
            (v = VStr (lit "Fiction") \/ v = VStr (lit "Non-Fiction"))).
  { intros v; unfold allowed; simpl.
    rewrite orb_false_r, orb_true_iff, !py_eq_str; tauto. }
  split; [|split; [|repeat split; reflexivity]]; intros v;
    unfold validate_category; specialize (K v);
    destruct (existsb (py_eq v) allowed); simpl.
  - split; [intros _; apply K; reflexivity | reflexivity].
  - split; [discriminate|]. intros H; apply K in H; discriminate.
  - split; [discriminate|]. intros [H1 H2].
    destruct (proj1 K eq_refl); contradiction.
  - split; [intros _|reflexivity].
    split; intros E; assert (false = true) by (apply K; auto); discriminate.
Qed.

(** ** The presence test shared by name and title *)

(** [not value or not str(value).strip()] on a string: the string is empty
    or whitespace only. *)
Lemma presence_check_str (s : str) :
  negb (truthy (VStr s)) || negb (truthy (VStr (strip (py_str (VStr s)))))
  = forallb isspace_char s.
Proof.
  destruct (forallb isspace_char s) eqn:E.
  - apply strip_nil_iff in E; simpl; rewrite E.
    destruct s; reflexivity.
  - assert (H : strip s <> []) by (rewrite strip_nil_iff; congruence).
    destruct s as [|c s]; [discriminate|]; simpl.
    destruct (strip (c :: s)); [congruence | reflexivity].
Qed.

Lemma presence_check_none :
  negb (truthy VNone) || negb (truthy (VStr (strip (py_str VNone)))) = true.
Proof. reflexivity. Qed.

(** When the presence test lets a value through, its trimmed rendering is
    not empty. *)
Lemma presence_check_false (v : value) :
  negb (truthy v) || negb (truthy (VStr (strip (py_str v)))) = false ->
  truthy v = true /\ strip (py_str v) <> [].
Proof.
  intros H; apply orb_false_iff in H as [H1 H2].
  apply negb_false_iff in H1, H2; split; [exact H1|].
  simpl in H2; destruct (strip (py_str v)); [discriminate | discriminate].
Qed.

(** ** Post.title *)

Lemma any_in_str (ps : list str) (s : str) :
  any_in ps (VStr s) = Ok (existsb (fun p => contains p s) ps).
Proof.
  induction ps as [|p ps IH]; simpl; [reflexivity|].
  destruct (contains p s); simpl; [reflexivity | exact IH].
Qed.

Lemma has_clickbait_iff (s : str) :
  existsb (fun p => contains p s) CLICKBAIT_PHRASES = true <-> has_clickbait s.
Proof.
  rewrite existsb_exists; split.
  - intros [p [Hp Hc]]; apply contains_spec in Hc as [l [r E]].
    exists p, l, r; auto.
  - intros [p [l [r [Hp E]]]]; exists p; split; [exact Hp|].
    apply contains_spec; eauto.
Qed.

Lemma validate_title_str (s : str) :
  validate_title (VStr s) =
    if forallb isspace_char s then Raise (ValueError msg_post_title)
    else if existsb (fun p => contains p s) CLICKBAIT_PHRASES
         then Ok (strip s)
         else Raise (ValueError msg_clickbait).
Proof.
  unfold validate_title; rewrite presence_check_str.
  destruct (forallb isspace_char s); [reflexivity|].
  rewrite any_in_str; cbn [bind py_strip].
  destruct (existsb (fun p => contains p s) CLICKBAIT_PHRASES); reflexivity.
Qed.

(** C4. [validate_title] raises its presence error on an absent, empty or
    whitespace-only candidate, raises on a candidate none of the four
    phrases occurs in (read before trimming), and on every other string
    returns the string trimmed. *)
Theorem validate_title_spec :
  CLICKBAIT_PHRASES
    = [lit "Won't Believe"; lit "Secret"; lit "Top"; lit "Guess"] /\
  validate_title VNone = Raise (ValueError msg_post_title) /\
  (forall s : str, forallb isspace_char s = true ->
     validate_title (VStr s) = Raise (ValueError msg_post_title)) /\
  (forall s : str, ~ has_clickbait s ->
     validate_title (VStr s)
     = Raise (ValueError (if forallb isspace_char s then msg_post_title
                          else msg_clickbait))) /\
  (forall s : str, forallb isspace_char s = false -> has_clickbait s ->
     validate_title (VStr s) = Ok (strip s)) /\
  validate_title (VStr (lit "You Won't Believe This"))
    = Ok (lit "You Won't Believe This") /\
  validate_title (VStr (lit "  Top 10 Secrets "))
    = Ok (lit "Top 10 Secrets") /\
  validate_title (VStr (lit "Boring Update"))
    = Raise (ValueError msg_clickbait) /\
  validate_title (VStr (lit "")) = Raise (ValueError msg_post_title).
Proof.
  split; [reflexivity|]. split; [reflexivity|].
  split; [|split; [|split; [|repeat split; reflexivity]]].
  - intros s H; rewrite validate_title_str, H; reflexivity.
  - intros s H; rewrite validate_title_str.
    destruct (forallb isspace_char s); [reflexivity|].
    destruct (existsb _ CLICKBAIT_PHRASES) eqn:E; [|reflexivity].
    apply has_clickbait_iff in E; contradiction.
  - intros s Hs H; rewrite validate_title_str, Hs.
    apply has_clickbait_iff in H; rewrite H; reflexivity.
Qed.

(** ** Author.name *)

Lemma validate_name_str (db : table) (self_id : option Z) (s : str) :
  validate_name db self_id (VStr s) =
    if forallb isspace_char s then Raise (ValueError msg_author_name)
    else match query_first_by_name db (strip s) with
         | Some existing =>
             if id_differs (id existing) self_id then
               Raise (ValueError msg_author_unique)
             else Ok (strip s)
         | None => Ok (strip s)
         end.
Proof.
  unfold validate_name; rewrite presence_check_str.
  destruct (forallb isspace_char s); reflexivity.
Qed.

Lemma Raise_ValueError_inj {A : Type} (m1 m2 : str) :
  @Raise A (ValueError m1) = Raise (ValueError m2) -> m1 = m2.
Proof. intros H; injection H; auto. Qed.

Lemma msg_unique_not_name : msg_author_unique <> msg_author_name.
Proof. intros H; vm_compute in H; discriminate. Qed.

Lemma query_first_some (db : table) (n : str) (e : Author) :
  query_first_by_name db n = Some e -> In e db /\ name e = n.
Proof.
  intros H; apply find_some in H as [Hi He].
  apply str_eqb_eq in He; auto.
Qed.

Lemma query_first_none (db : table) (n : str) :
  query_first_by_name db n = None <-> (forall a, In a db -> name a <> n).
Proof.
  split.
  - intros H a Ha; apply (find_none _ _ H) in Ha.
    apply str_eqb_neq in Ha; exact Ha.
  - intros H; destruct (query_first_by_name db n) as [e|] eqn:E; [|reflexivity].
    apply query_first_some in E as [Hi He]; elim (H e Hi He).
Qed.

(** No other record holds the name [n]. *)
Lemma unique_for_no_other (db : table) (self_id : option Z) (n : str) :
  (forall a, In a db -> name a = n -> id_differs (id a) self_id = false) ->
  unique_for db self_id n.
Proof.
  intros H; unfold unique_for.
  destruct (query_first_by_name db n) as [e|] eqn:E; [|exact I].
  apply query_first_some in E as [Hi He]; auto.
Qed.

Lemma duplicate_not_invalid (e : exn) : DuplicateField e -> ~ InvalidField e.
Proof.
  intros -> [m [Hm E]]; simpl in Hm.
  destruct Hm as [<- | [<- | [<- | [<- | [<- | [<- | [<- | []]]]]]]];
    vm_compute in E; discriminate E.
Qed.

(** What an accepted name tells. *)
Lemma validate_name_ok (db : table) (self_id : option Z) (v : value) (n : str) :
  validate_name db self_id v = Ok n ->
  n = strip (py_str v) /\ n <> [] /\ truthy v = true /\ unique_for db self_id n.
Proof.
  unfold validate_name, unique_for; intros H.
  destruct (negb (truthy v) || _) eqn:P; [discriminate|].
  apply presence_check_false in P as [Pt Pn].
  destruct (query_first_by_name db (strip (py_str v))) as [e|] eqn:Q.
  - destruct (id_differs (id e) self_id) eqn:D; [discriminate|].
    injection H as <-; rewrite Q; auto.
  - injection H as <-; rewrite Q; auto.
Qed.

(** What the duplicate error tells: the candidate was well formed and
    another record holds its trimmed value. *)
Lemma validate_name_duplicate (db : table) (self_id : option Z) (v : value) :
  validate_name db self_id v = Raise (ValueError msg_author_unique) ->
  truthy v = true /\ strip (py_str v) <> [] /\
  exists a, In a db /\ name a = strip (py_str v) /\
            id_differs (id a) self_id = true.
Proof.
  unfold validate_name; intros H.
  destruct (negb (truthy v) || _) eqn:P.
  - apply Raise_ValueError_inj in H; symmetry in H.
    elim (msg_unique_not_name H).
  - apply presence_check_false in P as [Pt Pn].
    destruct (query_first_by_name db (strip (py_str v))) as [e|] eqn:Q;
      [|discriminate].
    destruct (id_differs (id e) self_id) eqn:D; [|discriminate].
    apply query_first_some in Q as [Hi He]; eauto 6.
Qed.

Lemma not_blank (s : str) : s <> [] -> strip s = s -> forallb isspace_char s = false.
Proof.
  intros Hs Ht; destruct (forallb isspace_char s) eqn:E; [|reflexivity].
  apply strip_nil_iff in E; congruence.
Qed.

Lemma set_name_id (i : Z) (n : str) (a : Author) : id (set_name i n a) = id a.
Proof. unfold set_name; destruct (id a =? i)%Z; reflexivity. Qed.

Lemma set_name_name (i : Z) (n : str) (a : Author) :
  name (set_name i n a) = if (id a =? i)%Z then n else name a.
Proof. unfold set_name; destruct (id a =? i)%Z; reflexivity. Qed.

(** C5. [validate_name] raises its presence error on an absent, empty or
    whitespace-only candidate; on every other string, when no other record
    holds its trimmed value, it returns the string trimmed, and that value
    is the name the row then carries. *)
Theorem validate_name_spec (db : table) (self_id : option Z) :
  validate_name db self_id VNone = Raise (ValueError msg_author_name) /\
  (forall s : str, forallb isspace_char s = true ->
     validate_name db self_id (VStr s) = Raise (ValueError msg_author_name)) /\
  (forall s : str, forallb isspace_char s = false ->
     (forall a, In a db -> name a = strip s ->
                id_differs (id a) self_id = false) ->
     validate_name db self_id (VStr s) = Ok (strip s)) /\
  (forall (s : str) (pv : value) (db' : table),
     run_op db (Create (VStr s) pv) = Ok db' ->
     exists p, db' = db ++ [mkAuthor (next_id db) (strip s) p]) /\
  (forall (i : Z) (s : str) (db' : table),
     run_op db (AssignName i (VStr s)) = Ok db' ->
     forall a, In a db' -> id a = i -> name a = strip s).
Proof.
  split; [reflexivity|].
  split; [|split; [|split]].
  - intros s H; rewrite validate_name_str, H; reflexivity.
  - intros s Hs H; rewrite validate_name_str, Hs.
    pose proof (unique_for_no_other db self_id (strip s) H) as U.
    unfold unique_for in U.
    destruct (query_first_by_name db (strip s)); [rewrite U|]; reflexivity.
  - intros s pv db' H; cbn [run_op] in H.
    destruct (validate_name db None (VStr s)) as [n|] eqn:V; [|discriminate].
    apply validate_name_ok in V as [-> _]; cbn [bind] in H.
    destruct (validate_phone_number pv) as [p|]; [|discriminate].
    injection H as <-; exists p; reflexivity.
  - intros i s db' H a Ha Hi; cbn [run_op] in H.
    destruct (validate_name db (Some i) (VStr s)) as [n|] eqn:V; [|discriminate].
    apply validate_name_ok in V as [-> _]; injection H as <-.
    apply in_map_iff in Ha as [b [<- Hb]].
    rewrite set_name_id in Hi; rewrite set_name_name.
    apply Z.eqb_eq in Hi; rewrite Hi; reflexivity.
Qed.

Lemma validate_name_spec_witness :
  forallb isspace_char (lit "  Cy ") = false /\
  validate_name two_authors None (VStr (lit "  Cy ")) = Ok (lit "Cy").
Proof.
  split; [reflexivity|].
  destruct (validate_name_spec two_authors None) as [_ [_ [H _]]].
  apply (H (lit "  Cy ")); [reflexivity|].
  intros a [<- | [<- | []]]; discriminate.
Defined.

(** ** Duplicate names *)

Lemma find_app_none {A : Type} (f : A -> bool) (l1 l2 : list A) :
  find f l1 = None -> find f (l1 ++ l2) = find f l2.
Proof.
  induction l1 as [|a l1 IH]; simpl; [reflexivity|].
  destruct (f a); [discriminate | exact IH].
Qed.

(** A table that holds a row named [n], and no row named [n] before it,
    refuses the candidates trimming to [n] for every other record. *)
Lemma validate_name_taken (db : table) (a : Author) (self_id : option Z) (s : str) :
  (forall b, In b db -> name b <> strip s) ->
  name a = strip s -> strip s <> [] ->
  id_differs (id a) self_id = true ->
  validate_name (db ++ [a]) self_id (VStr s)
  = Raise (ValueError msg_author_unique).
Proof.
  intros Hdb Ha Hs Hd; rewrite validate_name_str.
  replace (forallb isspace_char s) with false.
  2:{ symmetry; destruct (forallb isspace_char s) eqn:E; [|reflexivity].
      apply strip_nil_iff in E; contradiction. }
  unfold query_first_by_name; rewrite find_app_none.
  - simpl; rewrite Ha, str_eqb_refl, Hd; reflexivity.
  - apply query_first_none; exact Hdb.
Qed.

(** C2. A non-empty trimmed string no row carries is accepted as the name
    of a new Author; after that the same candidate, and the candidate padded
    with two blanks on each side, raise the duplicate error for every other
    record, a new one or a stored one.  That error is none of the
    [InvalidField] errors, and [validate_name] raises it only for a
    well-formed candidate whose trimmed value another record holds. *)
Theorem duplicate_name_rejected (db : table) (s : str) (pv pv' : value) :
  s <> [] -> strip s = s ->
  (forall a, In a db -> name a <> s) ->
  validate_phone_number pv = Ok pv' ->
  run_op db (Create (VStr s) pv) = Ok (db ++ [mkAuthor (next_id db) s pv']) /\
  (forall pv2 : value,
     run_op (db ++ [mkAuthor (next_id db) s pv']) (Create (VStr s) pv2)
     = Raise (ValueError msg_author_unique)) /\
  (forall pv2 : value,
     run_op (db ++ [mkAuthor (next_id db) s pv'])
            (Create (VStr (lit "  " ++ s ++ lit "  ")) pv2)
     = Raise (ValueError msg_author_unique)) /\
  (forall self_id : option Z, id_differs (next_id db) self_id = true ->
     validate_name (db ++ [mkAuthor (next_id db) s pv']) self_id (VStr s)
     = Raise (ValueError msg_author_unique) /\
     validate_name (db ++ [mkAuthor (next_id db) s pv']) self_id
                   (VStr (lit "  " ++ s ++ lit "  "))
     = Raise (ValueError msg_author_unique)) /\
  (forall e : exn, DuplicateField e -> ~ InvalidField e) /\
  (forall (tb : table) (self_id : option Z) (v : value),
     validate_name tb self_id v = Raise (ValueError msg_author_unique) ->
     truthy v = true /\ strip (py_str v) <> [] /\
     exists a, In a tb /\ name a = strip (py_str v) /\
               id_differs (id a) self_id = true).
Proof.
  intros Hs Ht Hfree Hp.
  pose proof (strip_padded s Hs Ht) as Hpad.
  assert (T : forall self_id c, strip c = s ->
            id_differs (next_id db) self_id = true ->
            validate_name (db ++ [mkAuthor (next_id db) s pv']) self_id (VStr c)
            = Raise (ValueError msg_author_unique)).
  { intros self_id c Hc Hd; apply validate_name_taken; simpl; rewrite ?Hc; auto. }
  split; [|split; [|split; [|split; [|split]]]].
  - cbn [run_op]; rewrite validate_name_str, (not_blank s Hs Ht), Ht.
    replace (query_first_by_name db s) with (@None Author)
      by (symmetry; apply query_first_none; exact Hfree).
    cbn [bind]; rewrite Hp; reflexivity.
  - intros pv2; cbn [run_op]; rewrite (T None s Ht eq_refl); reflexivity.
  - intros pv2; cbn [run_op]; rewrite (T None _ Hpad eq_refl); reflexivity.
  - intros self_id Hd; split; apply T; auto.
  - exact duplicate_not_invalid.
  - exact validate_name_duplicate.
Qed.

Lemma duplicate_name_rejected_witness :
  run_op [] (Create (VStr (lit "Ann")) VNone)
    = Ok [mkAuthor 1 (lit "Ann") VNone] /\
  run_op [mkAuthor 1 (lit "Ann") VNone] (Create (VStr (lit "  Ann  ")) VNone)
    = Raise (ValueError msg_author_unique).
Proof.
  assert (H1 : lit "Ann" <> []) by discriminate.
  assert (H2 : strip (lit "Ann") = lit "Ann") by reflexivity.
  assert (H3 : forall a : Author, In a [] -> name a <> lit "Ann")
    by (intros a []).
  assert (H4 : validate_phone_number VNone = Ok VNone) by reflexivity.
  destruct (duplicate_name_rejected [] (lit "Ann") VNone VNone H1 H2 H3 H4)
    as [Hc [_ [Hd _]]].
  split; [exact Hc | exact (Hd VNone)].
Defined.

(** ** The invariant of the Author table *)

Lemma NoDup_map_eq {A B : Type} (f : A -> B) (l : list A) (a b : A) :
  NoDup (List.map f l) -> In a l -> In b l -> f a = f b -> a = b.
Proof.
  induction l as [|x l IH]; simpl; [tauto|].
  intros N Ha Hb E; inversion N as [|y m Hx Hl]; subst.
  destruct Ha as [-> | Ha], Hb as [-> | Hb]; auto.
  - elim Hx; rewrite E; apply in_map; exact Hb.
  - elim Hx; rewrite <- E; apply in_map; exact Ha.
Qed.

Lemma NoDup_snoc {A : Type} (l : list A) (x : A) :
  NoDup l -> ~ In x l -> NoDup (l ++ [x]).
Proof.
  induction l as [|y l IH]; simpl; intros N Hx.
  - constructor; [intros [] | constructor].
  - inversion N as [|z m Hy Hl]; subst; constructor.
    + rewrite in_app_iff; simpl; intros [H | [H | []]]; [auto|].
      apply Hx; left; auto.
    + apply IH; auto.
Qed.

Lemma NoDup_map_filter {A B : Type} (f : A -> B) (p : A -> bool) (l : list A) :
  NoDup (List.map f l) -> NoDup (List.map f (filter p l)).
Proof.
  induction l as [|x l IH]; simpl; [auto|].
  intros N; inversion N as [|y m Hx Hl]; subst.
  destruct (p x); simpl; [constructor|]; auto.
  intros H; apply Hx; apply in_map_iff in H as [z [E Hz]].
  apply filter_In in Hz as [Hz _]; rewrite <- E; apply in_map; exact Hz.
Qed.

Lemma next_id_fresh (db : table) (a : Author) : In a db -> (id a < next_id db)%Z.
Proof.
  unfold next_id; induction db as [|b db IH]; cbn [fold_right In]; [tauto|].
  intros [-> | H]; [lia|]. specialize (IH H); lia.
Qed.

Lemma validate_phone_number_ok (v p : value) :
  validate_phone_number v = Ok p -> p = v.
Proof.
  destruct v as [| | |s]; simpl; try discriminate.
  - intros H; injection H; auto.
  - destruct (negb (List.length s =? 10) || negb (isdigit s));
      [discriminate | intros H; injection H; auto].
Qed.

Lemma set_name_absent (i : Z) (n : str) (l : table) :
  ~ In i (List.map id l) -> List.map (set_name i n) l = l.
Proof.
  induction l as [|a l IH]; simpl; [reflexivity|]; intros H.
  rewrite IH by tauto; unfold set_name.
  destruct (Z.eqb_spec (id a) i); [elim H; auto | reflexivity].
Qed.

Lemma in_names_set_name (i : Z) (n x : str) (l : table) :
  In x (List.map name (List.map (set_name i n) l)) ->
  x = n \/ In x (List.map name l).
Proof.
  rewrite map_map, !in_map_iff; intros [a [E Ha]].
  rewrite set_name_name in E; destruct (id a =? i)%Z; eauto.
Qed.

(** Renaming the row [i] to a name no row carries keeps the names
    distinct. *)
Lemma NoDup_names_set_name (i : Z) (n : str) (l : table) :
  NoDup (List.map id l) -> NoDup (List.map name l) ->
  ~ In n (List.map name l) ->
  NoDup (List.map name (List.map (set_name i n) l)).
Proof.
  induction l as [|a l IH]; simpl; [auto|].
  intros Ni Nn Hn.
  inversion Ni as [|y m Hi Hl]; inversion Nn as [|y' m' Hx Hl']; subst.
  rewrite set_name_name; destruct (Z.eqb_spec (id a) i) as [E|E].
  - subst i; rewrite set_name_absent by assumption.
    constructor; tauto.
  - constructor; [|apply IH; tauto].
    intros H; apply in_names_set_name in H as [H | H]; [|contradiction].
    apply Hn; left; exact H.
Qed.

(** Renaming the row [i] to the name it carries changes nothing. *)
Lemma set_name_same (i : Z) (e : Author) (l : table) :
  NoDup (List.map id l) -> In e l -> id e = i ->
  List.map (set_name i (name e)) l = l.
Proof.
  intros N He Hi; rewrite <- (map_id l) at 2; apply map_ext_in.
  intros a Ha; unfold set_name; destruct (Z.eqb_spec (id a) i) as [E|E];
    [|reflexivity].
  assert (a = e) by (apply (NoDup_map_eq id l); congruence).
  subst a; destruct e; reflexivity.
Qed.

Lemma well_formed_nil : well_formed [].
Proof.
  split; simpl; [apply NoDup_nil | apply NoDup_nil | intros a [] | intros a []].
Qed.

Lemma id_differs_false (j i : Z) : id_differs j (Some i) = false -> j = i.
Proof.
  simpl; intros H; apply negb_false_iff in H; apply Z.eqb_eq; exact H.
Qed.

(** Every accepted operation keeps the invariant. *)
Lemma run_op_well_formed (db db' : table) (o : op) :
  well_formed db -> run_op db o = Ok db' -> well_formed db'.
Proof.
  intros [Wi Wn Wt Wp] H; destruct o as [nv pv | i nv | i pv | i];
    cbn [run_op] in H.
  - (* Create *)
    destruct (validate_name db None nv) as [n|] eqn:V; [|discriminate].
    cbn [bind] in H.
    destruct (validate_phone_number pv) as [p|] eqn:P; [|discriminate].
    injection H as <-.
    apply validate_name_ok in V as [En [Hn [_ U]]].
    assert (Q : query_first_by_name db n = None).
    { unfold unique_for in U; destruct (query_first_by_name db n);
        [discriminate | reflexivity]. }
    rewrite query_first_none in Q.
    split.
    + rewrite map_app; apply NoDup_snoc; [exact Wi|]; simpl.
      intros H; apply in_map_iff in H as [a [E Ha]].
      apply next_id_fresh in Ha; lia.
    + rewrite map_app; apply NoDup_snoc; [exact Wn|]; simpl.
      intros H; apply in_map_iff in H as [a [E Ha]]; elim (Q a Ha E).
    + intros a Ha; apply in_app_iff in Ha as [Ha | [<- | []]]; [auto|]; simpl.
      split; [rewrite En; apply strip_idem | exact Hn].
    + intros a Ha; apply in_app_iff in Ha as [Ha | [<- | []]]; [auto|]; simpl.
      pose proof (validate_phone_number_ok _ _ P) as ->; exact P.
  - (* AssignName *)
    destruct (validate_name db (Some i) nv) as [n|] eqn:V; [|discriminate].
    injection H as <-.
    apply validate_name_ok in V as [En [Hn [_ U]]]; unfold unique_for in U.
    destruct (query_first_by_name db n) as [e|] eqn:Q.
    + apply id_differs_false in U; apply query_first_some in Q as [He <-].
      rewrite set_name_same by assumption; split; assumption.
    + rewrite query_first_none in Q; split.
      * rewrite map_map; erewrite map_ext; [exact Wi|].
        intros a; apply set_name_id.
      * apply NoDup_names_set_name; auto.
        intros H; apply in_map_iff in H as [a [E Ha]]; elim (Q a Ha E).
      * intros a Ha; apply in_map_iff in Ha as [b [<- Hb]].
        rewrite set_name_name; destruct (id b =? i)%Z; [|auto].
        split; [rewrite En; apply strip_idem | exact Hn].
      * intros a Ha; apply in_map_iff in Ha as [b [<- Hb]].
        unfold set_name; destruct (id b =? i)%Z; simpl; auto.
  - (* AssignPhone *)
    destruct (validate_phone_number pv) as [p|] eqn:P; [|discriminate].
    injection H as <-.
    assert (Ei : forall a, id (set_phone_number i p a) = id a)
      by (intros a; unfold set_phone_number; destruct (id a =? i)%Z; reflexivity).
    assert (En : forall a, name (set_phone_number i p a) = name a)
      by (intros a; unfold set_phone_number; destruct (id a =? i)%Z; reflexivity).
    split.
    + rewrite map_map; erewrite map_ext; [exact Wi | exact Ei].
    + rewrite map_map; erewrite map_ext; [exact Wn | exact En].
    + intros a Ha; apply in_map_iff in Ha as [b [<- Hb]]; rewrite En; auto.
    + intros a Ha; apply in_map_iff in Ha as [b [<- Hb]].
      unfold set_phone_number; destruct (id b =? i)%Z; simpl; [|auto].
      pose proof (validate_phone_number_ok _ _ P) as ->; exact P.
  - (* Delete *)
    injection H as <-; split.
    + apply NoDup_map_filter; exact Wi.
    + apply NoDup_map_filter; exact Wn.
    + intros a Ha; apply filter_In in Ha as [Ha _]; auto.
    + intros a Ha; apply filter_In in Ha as [Ha _]; auto.
Qed.

Lemma run_ops_well_formed (ops : list op) (db db' : table) :
  well_formed db -> run_ops db ops = Ok db' -> well_formed db'.
Proof.
  revert db; induction ops as [|o ops IH]; simpl; intros db W H.
  - injection H as <-; exact W.
  - destruct (run_op db o) as [db1|] eqn:E; [|discriminate].
    apply (IH db1); [eapply run_op_well_formed; eauto | exact H].
Qed.

Lemma reachable_well_formed (db : table) : reachable db -> well_formed db.
Proof.
  intros [ops H]; eapply run_ops_well_formed; [apply well_formed_nil | exact H].
Qed.

Lemma run_ops_app (ops1 ops2 : list op) (db db1 : table) :
  run_ops db ops1 = Ok db1 -> run_ops db (ops1 ++ ops2) = run_ops db1 ops2.
Proof.
  revert db; induction ops1 as [|o ops1 IH]; simpl; intros db H.
  - injection H as <-; reflexivity.
  - destruct (run_op db o) as [d|]; [apply IH; exact H | discriminate].
Qed.

Lemma reachable_step (db db' : table) (o : op) :
  reachable db -> run_op db o = Ok db' -> reachable db'.
Proof.
  intros [ops H] E; exists (ops ++ [o]).
  rewrite (run_ops_app ops [o] [] db H); simpl; rewrite E; reflexivity.
Qed.

Lemma well_formed_unique_trimmed (db : table) :
  well_formed db -> unique_trimmed_names db.
Proof.
  intros [_ Wn Wt _]; unfold unique_trimmed_names.
  erewrite map_ext_in; [exact Wn|].
  intros a Ha; apply Wt; exact Ha.
Qed.

(** In a well-formed table a candidate whose trimmed rendering is the name
    of a row is refused for every other record. *)
Lemma validate_name_rejects_taken
  (db : table) (a : Author) (self_id : option Z) (v : value) :
  well_formed db -> In a db -> id_differs (id a) self_id = true ->
  strip (py_str v) = strip (name a) ->
  validate_name db self_id v
  = Raise (ValueError (if truthy v then msg_author_unique
                       else msg_author_name)).
Proof.
  intros [_ Wn Wt _] Ha Hd Hs; destruct (Wt a Ha) as [Et Hn].
  unfold validate_name; rewrite Hs, Et.
  replace (truthy (VStr (name a))) with true
    by (simpl; destruct (name a); congruence).
  destruct (truthy v); [|reflexivity]; simpl.
  destruct (query_first_by_name db (name a)) as [e|] eqn:Q.
  - apply query_first_some in Q as [He Ee].
    assert (e = a) by (apply (NoDup_map_eq name db); auto).
    subst e; rewrite Hd; reflexivity.
  - rewrite query_first_none in Q; elim (Q a Ha eq_refl).
Qed.

(** C1. In every table accepted operations lead to, the trimmed names of
    the rows are pairwise distinct; [validate_name] refuses, for every
    other record, a candidate whose trimmed value is the trimmed name of a
    row (with the duplicate error when the candidate is a string); and
    whatever operation is accepted next, the names stay distinct. *)
Theorem reachable_names_unique (db : table) :
  reachable db ->
  unique_trimmed_names db /\
  (forall (a : Author) (self_id : option Z) (v : value),
     In a db -> id_differs (id a) self_id = true ->
     strip (py_str v) = strip (name a) ->
     validate_name db self_id v
     = Raise (ValueError (if truthy v then msg_author_unique
                          else msg_author_name))) /\
  (forall (a : Author) (self_id : option Z) (s : str),
     In a db -> id_differs (id a) self_id = true ->
     strip s = strip (name a) ->
     validate_name db self_id (VStr s) = Raise (ValueError msg_author_unique)) /\
  (forall (o : op) (db' : table),
     run_op db o = Ok db' -> unique_trimmed_names db').
Proof.
  intros R; pose proof (reachable_well_formed db R) as W.
  split; [apply well_formed_unique_trimmed; exact W|].
  split; [|split].
  - intros a self_id v; apply validate_name_rejects_taken; exact W.
  - intros a self_id s Ha Hd Hs.
    rewrite (validate_name_rejects_taken db a self_id (VStr s) W Ha Hd Hs).
    destruct (wf_trimmed db W a Ha) as [Et Hn].
    destruct s as [|c s]; [|reflexivity].
    change (strip []) with (@nil char) in Hs; congruence.
  - intros o db' H; apply well_formed_unique_trimmed.
    eapply run_op_well_formed; eauto.
Qed.

Lemma reachable_names_unique_witness :
  reachable two_authors /\
  unique_trimmed_names two_authors /\
  validate_name two_authors None (VStr (lit " Ann "))
  = Raise (ValueError msg_author_unique).
Proof.
  assert (R : reachable two_authors).
  { exists [Create (VStr (lit "  Ann ")) VNone;
            Create (VStr (lit "Bob")) (VStr (lit "1234567890"))].
    reflexivity. }
  destruct (reachable_names_unique two_authors R) as [U [_ [D _]]].
  split; [exact R | split; [exact U|]].
  apply (D (mkAuthor 1 (lit "Ann") VNone));
    [left; reflexivity | reflexivity | reflexivity].
Defined.

(** ** Idempotence *)

Lemma clickbait_phrases_trimmed (p : str) :
  In p CLICKBAIT_PHRASES -> p <> [] /\ trimmed p = true.
Proof.
  intros [<- | [<- | [<- | [<- | []]]]]; split;
    solve [discriminate | reflexivity].
Qed.

Lemma validate_title_ok (v : value) (t : str) :
  validate_title v = Ok t ->
  exists s, v = VStr s /\ t = strip s /\ strip s <> [] /\
            existsb (fun p => contains p s) CLICKBAIT_PHRASES = true.
Proof.
  destruct v as [| b | z | s].
  - discriminate.
  - destruct b; discriminate.
  - unfold validate_title; destruct (negb (truthy (VInt z)) || _); discriminate.
  - rewrite validate_title_str.
    destruct (forallb isspace_char s) eqn:E; [discriminate|].
    destruct (existsb _ CLICKBAIT_PHRASES) eqn:C; [|discriminate].
    intros H; injection H as <-; exists s; repeat split; auto.
    rewrite strip_nil_iff; congruence.
Qed.

Lemma returns_argument_idempotent (validate : value -> result value) :
  (forall v y, validate v = Ok y -> y = v) ->
  idempotent validate (fun y => y).
Proof. intros H v y E; pose proof (H v y E); subst y; exact E. Qed.

Lemma validate_content_ok (v y : value) : validate_content v = Ok y -> y = v.
Proof.
  destruct v as [| | |s]; try discriminate.
  rewrite validate_content_str; destruct (List.length s <? 250);
    [discriminate | intros H; injection H; auto].
Qed.

Lemma validate_summary_ok (v y : value) : validate_summary v = Ok y -> y = v.
Proof.
  destruct v as [| | |s]; try discriminate.
  - intros H; injection H; auto.
  - rewrite validate_summary_str; destruct (250 <? List.length s);
      [discriminate | intros H; injection H; auto].
Qed.

Lemma validate_category_ok (v y : value) : validate_category v = Ok y -> y = v.
Proof.
  unfold validate_category; destruct (negb _);
    [discriminate | intros H; injection H; auto].
Qed.

(** C9. Each of the six validators accepts the value it returned and
    returns it unchanged (the name for the same record against the same
    table); and in every table accepted operations lead to, assigning a row
    its own name and phone number again raises nothing. *)
Theorem validators_idempotent :
  (forall (db : table) (self_id : option Z),
     idempotent (validate_name db self_id) VStr) /\
  idempotent validate_phone_number (fun y => y) /\
  idempotent validate_title VStr /\
  idempotent validate_content (fun y => y) /\
  idempotent validate_summary (fun y => y) /\
  idempotent validate_category (fun y => y) /\
  (forall (db : table) (a : Author), reachable db -> In a db ->
     validate_name db (Some (id a)) (VStr (name a)) = Ok (name a) /\
     validate_phone_number (phone_number a) = Ok (phone_number a) /\
     run_op db (AssignName (id a) (VStr (name a))) = Ok db).
Proof.
  split; [|split; [|split; [|split; [|split; [|split]]]]].
  - intros db self_id v n H.
    apply validate_name_ok in H as [En [Hn [_ U]]].
    assert (Et : strip n = n) by (rewrite En; apply strip_idem).
    rewrite validate_name_str, (not_blank n Hn Et), Et.
    unfold unique_for in U.
    destruct (query_first_by_name db n); [rewrite U|]; reflexivity.
  - apply returns_argument_idempotent, validate_phone_number_ok.
  - intros v t H.
    apply validate_title_ok in H as [s [-> [-> [Hn C]]]].
    rewrite validate_title_str, strip_idem.
    rewrite (not_blank (strip s) Hn (strip_idem s)).
    replace (existsb (fun p => contains p (strip s)) CLICKBAIT_PHRASES)
      with true; [reflexivity|].
    symmetry; apply existsb_exists in C as [p [Hp Hc]].
    apply existsb_exists; exists p; split; [exact Hp|].
    destruct (clickbait_phrases_trimmed p Hp) as [P1 P2].
    apply contains_strip; assumption.
  - apply returns_argument_idempotent, validate_content_ok.
  - apply returns_argument_idempotent, validate_summary_ok.
  - apply returns_argument_idempotent, validate_category_ok.
  - intros db a R Ha; pose proof (reachable_well_formed db R) as W.
    destruct (wf_trimmed db W a Ha) as [Et Hn].
    assert (V : validate_name db (Some (id a)) (VStr (name a)) = Ok (name a)).
    { rewrite validate_name_str, (not_blank _ Hn Et), Et.
      destruct (query_first_by_name db (name a)) as [e|] eqn:Q; [|reflexivity].
      apply query_first_some in Q as [He Ee].
      assert (e = a) by (apply (NoDup_map_eq name db); auto using wf_names).
      subst e; simpl; rewrite Z.eqb_refl; reflexivity. }
    split; [exact V | split; [apply (wf_phones db W a Ha)|]].
    cbn [run_op]; rewrite V; cbn [bind].
    rewrite (set_name_same (id a) a db (wf_ids db W) Ha eq_refl); reflexivity.
Qed.

Lemma validators_idempotent_witness :
  validate_title (VStr (lit "  Top 10 Secrets ")) = Ok (lit "Top 10 Secrets") /\
  validate_title (VStr (lit "Top 10 Secrets")) = Ok (lit "Top 10 Secrets") /\
  validate_name two_authors (Some 2%Z) (VStr (lit " Bob ")) = Ok (lit "Bob") /\
  validate_name two_authors (Some 2%Z) (VStr (lit "Bob")) = Ok (lit "Bob").
Proof.
  destruct validators_idempotent as [N [_ [T _]]].
  assert (H1 : validate_title (VStr (lit "  Top 10 Secrets "))
               = Ok (lit "Top 10 Secrets")) by reflexivity.
  assert (H2 : validate_name two_authors (Some 2%Z) (VStr (lit " Bob "))
               = Ok (lit "Bob")) by reflexivity.
  split; [exact H1 | split; [exact (T _ _ H1) | split; [exact H2|]]].
  exact (N two_authors (Some 2%Z) _ _ H2).
Defined.

(** * Further properties of the validators *)

(** ** What an accepted value looks like *)

Lemma trimmed_ends (n : str) :
  trimmed n = true ->
  (forall c r, n = c :: r -> isspace_char c = false) /\
  (forall r c, n = r ++ [c] -> isspace_char c = false).
Proof.
  unfold trimmed; intros H; apply andb_true_iff in H as [H1 H2]; split.
  - intros c r ->; simpl in H1; apply negb_true_iff; exact H1.
  - intros r c ->; rewrite rev_app_distr in H2; simpl in H2.
    apply negb_true_iff; exact H2.
Qed.

(** X1. Whatever [validate_name] returns, for whatever candidate, is the
    trimmed rendering of the candidate: it is not empty, trimming leaves it
    as it is, and neither its first nor its last character is whitespace. *)
Theorem validate_name_result_trimmed
  (db : table) (self_id : option Z) (v : value) (n : str) :
  validate_name db self_id v = Ok n ->
  n = strip (py_str v) /\ n <> [] /\ strip n = n /\
  (forall c r, n = c :: r -> isspace_char c = false) /\
  (forall r c, n = r ++ [c] -> isspace_char c = false).
Proof.
  intros H; apply validate_name_ok in H as [En [Hn _]].
  split; [exact En | split; [exact Hn|]].
  split; [rewrite En; apply strip_idem|].
  apply trimmed_ends; rewrite En; apply trimmed_strip.
Qed.

Lemma validate_name_result_trimmed_witness :
  validate_name two_authors None (VStr (lit "  Dee  ")) = Ok (lit "Dee") /\
  strip (lit "Dee") = lit "Dee".
Proof.
  assert (H : validate_name two_authors None (VStr (lit "  Dee  "))
              = Ok (lit "Dee")) by reflexivity.
  split; [exact H|].
  apply (validate_name_result_trimmed two_authors None _ _ H).
Defined.

(** X2. Whatever [validate_title] returns came from a string candidate, is
    that string trimmed, is not empty, and still holds one of the four
    phrases: trimming cannot cut a phrase. *)
Theorem validate_title_result_clickbait (v : value) (t : str) :
  validate_title v = Ok t ->
  (exists s, v = VStr s /\ t = strip s) /\
  t <> [] /\ strip t = t /\ has_clickbait t.
Proof.
  intros H; apply validate_title_ok in H as [s [-> [-> [Hn C]]]].
  split; [exists s; auto|].
  split; [exact Hn | split; [apply strip_idem|]].
  apply has_clickbait_iff.
  apply existsb_exists in C as [p [Hp Hc]].
  apply existsb_exists; exists p; split; [exact Hp|].
  destruct (clickbait_phrases_trimmed p Hp); apply contains_strip; assumption.
Qed.

Lemma validate_title_result_clickbait_witness :
  validate_title (VStr (lit " My Secret Garden ")) = Ok (lit "My Secret Garden") /\
  has_clickbait (lit "My Secret Garden").
Proof.
  assert (H : validate_title (VStr (lit " My Secret Garden "))
              = Ok (lit "My Secret Garden")) by reflexivity.
  split; [exact H|].
  apply (validate_title_result_clickbait _ _ H).
Defined.

(** ** Surrounding whitespace *)

(** The trimmed string sits inside the string it was trimmed from. *)
Lemma strip_infix (s : str) : exists l r, s = l ++ strip s ++ r.
Proof.
  destruct (lstrip_suffix s) as [pre E].
  destruct (lstrip_suffix (rev (lstrip s))) as [pre' E'].
  apply (f_equal (@rev _)) in E'.
  rewrite rev_involutive, rev_app_distr in E'.
  exists pre, (rev pre'); unfold strip, rstrip.
  rewrite <- E'; exact E.
Qed.

Lemma isspace_strip (s : str) :
  forallb isspace_char (strip s) = forallb isspace_char s.
Proof.
  destruct (forallb isspace_char s) eqn:E.
  - apply strip_nil_iff in E; rewrite E; reflexivity.
  - destruct (forallb isspace_char (strip s)) eqn:E'; [|reflexivity].
    apply strip_nil_iff in E'; rewrite strip_idem in E'.
    apply strip_nil_iff in E'; congruence.
Qed.

Lemma clickbait_strip (s : str) :
  existsb (fun p => contains p (strip s)) CLICKBAIT_PHRASES
  = existsb (fun p => contains p s) CLICKBAIT_PHRASES.
Proof.
  destruct (existsb (fun p => contains p s) CLICKBAIT_PHRASES) eqn:E.
  - apply existsb_exists in E as [p [Hp Hc]].
    apply existsb_exists; exists p; split; [exact Hp|].
    destruct (clickbait_phrases_trimmed p Hp); apply contains_strip; assumption.
  - destruct (existsb (fun p => contains p (strip s)) CLICKBAIT_PHRASES) eqn:E';
      [|reflexivity].
    rewrite <- E; symmetry.
    apply existsb_exists in E' as [p [Hp Hc]].
    apply existsb_exists; exists p; split; [exact Hp|].
    apply contains_spec in Hc as [l [r Hc]].
    destruct (strip_infix s) as [l' [r' Hs]].
    apply contains_spec; exists (l' ++ l), (r ++ r').
    rewrite Hs at 1; rewrite Hc, <- !app_assoc; reflexivity.
Qed.

(** X3. Whitespace around a string candidate changes nothing: for a name
    and for a title the validator gives the trimmed candidate the result,
    value or error, it gives the candidate itself. *)
Theorem surrounding_whitespace_irrelevant
  (db : table) (self_id : option Z) (s : str) :
  validate_name db self_id (VStr s) = validate_name db self_id (VStr (strip s)) /\
  validate_title (VStr s) = validate_title (VStr (strip s)).
Proof.
  split.
  - rewrite !validate_name_str, isspace_strip, strip_idem; reflexivity.
  - rewrite !validate_title_str, isspace_strip, strip_idem, clickbait_strip.
    reflexivity.
Qed.

(** ** Phone numbers *)

Lemma phone_accepted_str (s : str) :
  phone_accepted (VStr s) <->
  (List.length s =? 10) && forallb isdigit_char s = true.
Proof.
  rewrite andb_true_iff, Nat.eqb_eq; unfold phone_accepted; split.
  - intros [H | [t [E H]]]; [discriminate | injection E as ->; exact H].
  - intros H; right; exists s; auto.
Qed.

(** X4. [validate_phone_number] has two outcomes on every value: it returns
    the candidate itself, exactly when the candidate is [None] or a string
    of ten characters [str.isdigit] accepts, and otherwise it raises the
    phone [ValueError]; no input makes it raise anything else. *)
Theorem validate_phone_number_outcomes (v : value) :
  (validate_phone_number v = Ok v <-> phone_accepted v) /\
  (validate_phone_number v = Raise (ValueError msg_phone)
   <-> ~ phone_accepted v) /\
  (forall p, validate_phone_number v = Ok p -> p = v) /\
  (forall e, validate_phone_number v = Raise e -> e = ValueError msg_phone).
Proof.
  assert (N : forall w, is_str w = false -> w <> VNone -> ~ phone_accepted w).
  { intros w Hw Hn [H | [s [-> _]]]; [contradiction | discriminate]. }
  split; [|split; [|split]].
  - destruct v as [| b | z | s].
    + split; [left | ]; reflexivity.
    + split; [discriminate | intros H; elim (N (VBool b)); easy].
    + split; [discriminate | intros H; elim (N (VInt z)); easy].
    + rewrite validate_phone_number_str, phone_accepted_str.
      destruct (_ && _); split; easy.
  - destruct v as [| b | z | s].
    + split; [discriminate | intros H; elim H; left; reflexivity].
    + split; [intros _; apply N; easy | reflexivity].
    + split; [intros _; apply N; easy | reflexivity].
    + rewrite validate_phone_number_str, phone_accepted_str.
      destruct (_ && _); split; try easy.
  - intros p; apply validate_phone_number_ok.
  - intros e; destruct v as [| b | z | s]; simpl; try discriminate;
      try (intros H; injection H; auto).
    destruct (negb _ || negb _); [intros H; injection H; auto | discriminate].
Qed.

(** X5. On a string of ASCII characters the phone check is the plain one:
    accepted exactly when the string is ten characters long and each is a
    digit 0-9. *)
Theorem validate_phone_number_ascii (s : str) :
  forallb is_ascii s = true ->
  (validate_phone_number (VStr s) = Ok (VStr s)
   <-> List.length s = 10 /\ forallb ascii_digit s = true).
Proof.
  intros Ha.
  assert (E : forallb isdigit_char s = forallb ascii_digit s).
  { clear - Ha; induction s as [|c s IH]; simpl in *; [reflexivity|].
    apply andb_true_iff in Ha as [Hc Hs]; rewrite (IH Hs).
    rewrite isdigit_char_ascii; [reflexivity|].
    apply N.ltb_lt; exact Hc. }
  rewrite validate_phone_number_str, E, <- Nat.eqb_eq, <- andb_true_iff.
  destruct (_ && _); split; easy.
Qed.

Lemma validate_phone_number_ascii_witness :
  forallb is_ascii (lit "5551234567") = true /\
  validate_phone_number (VStr (lit "5551234567")) = Ok (VStr (lit "5551234567")).
Proof.
  split; [reflexivity|].
  apply (validate_phone_number_ascii (lit "5551234567")); [reflexivity|].
  split; reflexivity.
Defined.

(** ** Candidates that are not strings *)

Lemma lit_cons (a : ascii) (s : string) :
  lit (String a s) = N_of_ascii a :: lit s.
Proof. reflexivity. Qed.

Lemma lit_inj (s t : string) : lit s = lit t -> s = t.
Proof.
  revert t; induction s as [|a s IH]; intros [|b t]; try discriminate.
  - reflexivity.
  - rewrite !lit_cons; intros H; injection H as Ha Hs.
    apply (f_equal ascii_of_N) in Ha; rewrite !ascii_N_embedding in Ha.
    rewrite Ha, (IH t Hs); reflexivity.
Qed.

Lemma uint_chars (d : Decimal.uint) :
  forallb decimal_char (lit (NilEmpty.string_of_uint d)) = true.
Proof. induction d; simpl NilEmpty.string_of_uint; try rewrite lit_cons; simpl; auto. Qed.

(** The decimal rendering of an integer: not empty, made of digits and a
    possible minus sign. *)
Lemma py_str_int_chars (z : Z) :
  py_str (VInt z) <> [] /\ forallb decimal_char (py_str (VInt z)) = true.
Proof.
  unfold py_str; destruct (Z.to_int z) as [d | d]; simpl NilZero.string_of_int.
  - destruct d; split; try discriminate; try reflexivity;
      apply (uint_chars (_ d)).
  - rewrite lit_cons; split; [discriminate|].
    cbn [forallb]; apply andb_true_iff; split; [reflexivity|].
    destruct d; try reflexivity; apply (uint_chars (_ d)).
Qed.

Lemma py_str_int_inj (z z' : Z) : py_str (VInt z) = py_str (VInt z') -> z = z'.
Proof.
  assert (K : forall n, Z.to_int n <> Decimal.Pos Decimal.Nil /\
                        Z.to_int n <> Decimal.Neg Decimal.Nil).
  { intros [|p|p]; simpl; split; try discriminate;
      intros H; injection H; apply Unsigned.to_uint_nonnil. }
  unfold py_str; intros H; apply lit_inj in H.
  apply (f_equal NilZero.int_of_string) in H.
  destruct (K z), (K z'); rewrite !NilZero.isi in H by assumption.
  injection H; apply DecimalZ.to_int_inj.
Qed.














(** ** Names over the life of the table *)

Lemma validate_name_free (db : table) (self_id : option Z) (n : str) :
  n <> [] -> strip n = n -> (forall b, In b db -> name b <> n) ->
  validate_name db self_id (VStr n) = Ok n.
Proof.
  intros Hn Ht Hf; rewrite validate_name_str, (not_blank n Hn Ht), Ht.
  replace (query_first_by_name db n) with (@None Author);
    [reflexivity | symmetry; apply query_first_none; exact Hf].
Qed.

(** X10. Deleting a row gives its name back: in a table accepted
    operations lead to, once the row is deleted the row is gone and its
    name is accepted for a new Author. *)
Theorem deleted_name_available (db db1 : table) (a : Author) :
  reachable db -> In a db -> run_op db (Delete (id a)) = Ok db1 ->
  ~ In a db1 /\
  validate_name db1 None (VStr (name a)) = Ok (name a) /\
  exists db2, run_op db1 (Create (VStr (name a)) VNone) = Ok db2.
Proof.
  intros R Ha H; pose proof (reachable_well_formed db R) as W.
  cbn [run_op] in H; injection H as <-.
  destruct (wf_trimmed db W a Ha) as [Et Hn].
  assert (V : validate_name (filter (fun b => negb (id b =? id a)%Z) db) None
                (VStr (name a)) = Ok (name a)).
  { apply validate_name_free; auto.
    intros b Hb E; apply filter_In in Hb as [Hb Hi].
    assert (b = a) by (apply (NoDup_map_eq name db); auto using wf_names).
    subst b; rewrite Z.eqb_refl in Hi; discriminate. }
  split; [|split; [exact V|]].
  - intros Hin; apply filter_In in Hin as [_ Hi].
    rewrite Z.eqb_refl in Hi; discriminate.
  - cbn [run_op]; rewrite V; cbn [bind validate_phone_number]; eauto.
Qed.

Lemma deleted_name_available_witness :
  reachable two_authors /\
  validate_name [mkAuthor 2 (lit "Bob") (VStr (lit "1234567890"))] None
    (VStr (lit "Ann")) = Ok (lit "Ann").
Proof.
  assert (R : reachable two_authors).
  { exists [Create (VStr (lit "Ann")) VNone;
            Create (VStr (lit "Bob")) (VStr (lit "1234567890"))].
    reflexivity. }
  split; [exact R|].
  apply (deleted_name_available two_authors
           [mkAuthor 2 (lit "Bob") (VStr (lit "1234567890"))]
           (mkAuthor 1 (lit "Ann") VNone) R);
    [left; reflexivity | reflexivity].
Defined.

(** X11. Renaming a row gives its old name back: in a table accepted
    operations lead to, after an accepted assignment of another name to a
    row, the name it carried is accepted for a new Author. *)
Theorem renamed_name_available (db db1 : table) (a : Author) (v : value) :
  reachable db -> In a db ->
  run_op db (AssignName (id a) v) = Ok db1 ->
  strip (py_str v) <> name a ->
  validate_name db1 None (VStr (name a)) = Ok (name a).
Proof.
  intros R Ha H Hne; pose proof (reachable_well_formed db R) as W.
  cbn [run_op] in H.
  destruct (validate_name db (Some (id a)) v) as [n|] eqn:V; [|discriminate].
  injection H as <-; apply validate_name_ok in V as [En _].
  destruct (wf_trimmed db W a Ha) as [Et Hn].
  apply validate_name_free; auto.
  intros b Hb E; apply in_map_iff in Hb as [c [<- Hc]].
  rewrite set_name_name in E.
  destruct (Z.eqb_spec (id c) (id a)) as [Ei | Ei]; [congruence|].
  apply Ei; f_equal.
  apply (NoDup_map_eq name db); auto using wf_names.
Qed.

Lemma renamed_name_available_witness :
  reachable two_authors /\
  validate_name
    [mkAuthor 1 (lit "Zoe") VNone; mkAuthor 2 (lit "Bob") (VStr (lit "1234567890"))]
    None (VStr (lit "Ann")) = Ok (lit "Ann").
Proof.
  assert (R : reachable two_authors).
  { exists [Create (VStr (lit "Ann")) VNone;
            Create (VStr (lit "Bob")) (VStr (lit "1234567890"))].
    reflexivity. }
  split; [exact R|].
  apply (renamed_name_available two_authors _
           (mkAuthor 1 (lit "Ann") VNone) (VStr (lit " Zoe ")) R);
    [left; reflexivity | reflexivity | discriminate].
Defined.

Lemma find_map_preserving (f : Author -> Author) (p : Author -> bool) (l : table) :
  (forall a, p (f a) = p a) -> find p (List.map f l) = option_map f (find p l).
Proof.
  intros H; induction l as [|a l IH]; simpl; [reflexivity|].
  rewrite H; destruct (p a); [reflexivity | exact IH].
Qed.

(** X12. The uniqueness check reads ids and names only: after an accepted
    assignment of a phone number, [validate_name] gives every candidate,
    for every record, the result it gave before. *)
Theorem assign_phone_keeps_name_check (db db1 : table) (i : Z) (pv : value) :
  run_op db (AssignPhone i pv) = Ok db1 ->
  forall (self_id : option Z) (v : value),
    validate_name db1 self_id v = validate_name db self_id v.
Proof.
  intros H self_id v; cbn [run_op] in H.
  destruct (validate_phone_number pv) as [p|]; [|discriminate].
  injection H as <-; unfold validate_name, query_first_by_name.
  rewrite find_map_preserving.
  - destruct (find _ db) as [e|]; simpl; [|reflexivity].
    replace (id (set_phone_number i p e)) with (id e); [reflexivity|].
    unfold set_phone_number; destruct (id e =? i)%Z; reflexivity.
  - intros a; unfold set_phone_number; destruct (id a =? i)%Z; reflexivity.
Qed.

Lemma assign_phone_keeps_name_check_witness :
  validate_name
    [mkAuthor 1 (lit "Ann") (VStr (lit "5551234567"));
     mkAuthor 2 (lit "Bob") (VStr (lit "1234567890"))]
    None (VStr (lit "Ann"))
  = validate_name two_authors None (VStr (lit "Ann")).
Proof.
  apply (assign_phone_keeps_name_check two_authors _ 1 (VStr (lit "5551234567")));
    reflexivity.
Defined.

(** ** The [__repr__] methods *)

Lemma split_at_first (c : char) (x y r r' : str) :
  ~ In c x -> ~ In c y -> x ++ c :: r = y ++ c :: r' -> x = y /\ r = r'.
Proof.
  revert y; induction x as [|a x IH]; intros [|b y] Hx Hy E; simpl in *.
  - injection E; auto.
  - injection E as -> _; elim Hy; auto.
  - injection E as -> _; elim Hx; auto.
  - injection E as -> E; destruct (IH y) as [-> ->]; auto.
Qed.

Lemma decimal_no_comma (z : Z) : ~ In 0x2c%N (py_str (VInt z)).
Proof.
  destruct (py_str_int_chars z) as [_ H]; intros Hin.
  rewrite forallb_forall in H; specialize (H _ Hin); discriminate.
Qed.

(** X13. [Author.__repr__] of a stored row tells its id and its name: two
    rows with the same rendering have the same id and the same name (the
    phone number is not rendered), and in a table accepted operations lead
    to they are the same row. *)
Theorem Author_repr_inj (a b : Author) :
  Author_repr a = Author_repr b ->
  id a = id b /\ name a = name b /\
  (forall db, reachable db -> In a db -> In b db -> a = b).
Proof.
  unfold Author_repr; intros H.
  apply app_inv_head in H.
  change (lit ", name=") with (0x2c%N :: lit " name=") in H.
  rewrite <- !app_comm_cons in H.
  apply split_at_first in H as [Hi Hn]; try apply decimal_no_comma.
  apply py_str_int_inj in Hi.
  apply app_inv_head in Hn; apply app_inv_tail in Hn; simpl in Hn.
  split; [exact Hi | split; [exact Hn|]].
  intros db R Ha Hb; pose proof (reachable_well_formed db R) as W.
  apply (NoDup_map_eq id db); auto using wf_ids.
Qed.

Lemma Author_repr_inj_witness :
  Author_repr (mkAuthor 7 (lit "Ann") VNone) = lit "Author(id=7, name=Ann)" /\
  name (mkAuthor 7 (lit "Ann") VNone)
  = name (mkAuthor 7 (lit "Ann") (VStr (lit "5551234567"))).
Proof.
  split; [reflexivity|].
  apply (Author_repr_inj (mkAuthor 7 (lit "Ann") VNone)
           (mkAuthor 7 (lit "Ann") (VStr (lit "5551234567"))));
    reflexivity.
Defined.

(** X14. [Post.__repr__] does not tell title and content apart: the text
    between the two is a blank and the word content=, which a title may
    hold itself, so a post whose title ends in such a piece and the post
    whose content starts with it have the same rendering, whatever the
    other fields are. *)
Theorem Post_repr_ambiguous (i cat sm : value) (t x c : str) :
  Post_repr (mkPost i (VStr (t ++ lit " content=" ++ x)) (VStr c) cat sm)
  = Post_repr (mkPost i (VStr t) (VStr (x ++ lit " content=" ++ c)) cat sm) /\
  t ++ lit " content=" ++ x <> t.
Proof.
  split.
  - unfold Post_repr; cbn [post_id title content summary py_str].
    change (lit " content=") with (lit " " ++ lit "content=").
    rewrite <- !app_assoc; reflexivity.
  - intros H; apply (f_equal (@List.length _)) in H.
    rewrite !length_app in H; simpl in H; lia.
Qed.

(** ** Two more consequences *)

(** X15. The phrases are matched as they are written, capitals included:
    a title without any ASCII capital letter is never accepted. *)
Theorem validate_title_needs_capital (s : str) :
  forallb (fun c => negb (is_upper c)) s = true ->
  validate_title (VStr s)
  = Raise (ValueError (if forallb isspace_char s then msg_post_title
                       else msg_clickbait)).
Proof.
  intros H; rewrite validate_title_str.
  destruct (forallb isspace_char s); [reflexivity|].
  destruct (existsb _ CLICKBAIT_PHRASES) eqn:E; [|reflexivity].
  apply has_clickbait_iff in E as [p [l [r [Hp ->]]]].
  rewrite !forallb_app in H.
  apply andb_true_iff in H as [_ H]; apply andb_true_iff in H as [H _].
  destruct Hp as [<- | [<- | [<- | [<- | []]]]]; discriminate H.
Qed.

Lemma validate_title_needs_capital_witness :
  validate_title (VStr (lit "my secret, you won't believe it"))
  = Raise (ValueError msg_clickbait).
Proof.
  apply (validate_title_needs_capital (lit "my secret, you won't believe it")).
  reflexivity.
Defined.

(** X16. The two length rules meet at one length: a string is accepted
    both as content and as summary exactly when it has 250 characters. *)
Theorem content_and_summary_meet (s : str) :
  (validate_content (VStr s) = Ok (VStr s) /\
   validate_summary (VStr s) = Ok (VStr s))
  <-> List.length s = 250.
Proof.
  rewrite validate_content_str, validate_summary_str.
  destruct (Nat.ltb_spec (List.length s) 250),
           (Nat.ltb_spec 250 (List.length s)); split;
    try (intros [H1 H2]; discriminate); try lia; intros; split; reflexivity.
Qed.
